(** * LLM Council backend: the HTTP handlers of [backend/main.py]

    A shallow embedding of the request handlers (conversation CRUD, the batch
    [send_message], the streaming [send_message_stream] with its inner
    generator [generate]) and of [verify_credentials], together with the
    properties the design document states about them.

    The handlers are written as small programs over the calls they make
    (storage, uuid, the council stages); an interpreter runs a program against
    a store and the answers of the remote models, and records what the
    program did, in order. *)

From Stdlib Require Import ZArith Lia.
From stdpp Require Import gmap strings list fin_maps.

Set Warnings "-register-all".
Open Scope string_scope.

(** ** Data *)

(** JSON-serialisable Python values, as the handlers pass them around. A dict
    keeps its insertion order; a number is kept as its literal. *)
Inductive json : Type :=
| JNull
| JBool (b : bool)
| JNum (literal : string)
| JStr (s : string)
| JList (items : list json)
| JObj (fields : list (string * json)).

(** [d.get(key)] on the field list of a dict. *)
Fixpoint get_field (key : string) (fields : list (string * json)) : option json :=
  match fields with
  | [] => None
  | (k, v) :: rest => if String.eqb k key then Some v else get_field key rest
  end.

(** One turn of a conversation: [{"role": ..., "content": ...}]. *)
Record Message : Type := { role : string; content : json }.

(** A stored conversation: [{"id": ..., "title": ..., "messages": [...]}]. *)
Record Conversation : Type := {
  id : string;
  title : string;
  messages : list Message
}.

(** [conversation["messages"].append(m)] *)
Definition append_message (conversation : Conversation) (m : Message) : Conversation :=
  {| id := id conversation;
     title := title conversation;
     messages := messages conversation ++ [m] |}.

(** [conversation["title"] = t] *)
Definition set_title (conversation : Conversation) (t : string) : Conversation :=
  {| id := id conversation;
     title := t;
     messages := messages conversation |}.

(** Run-level failures of the pipeline, as the design document names them. *)
Inductive RunFailure : Type :=
| AllMembersFailed (stage : string)
| ChairmanUnavailable (reason : string).

(** What a handler can raise. *)
Inductive Exn : Type :=
| HTTPException (status_code : nat) (detail : string) (headers : list (string * string))
| RunError (failure : RunFailure).

(** ** Authentication *)

Module Auth.

(** [os.getenv(name)] and [os.getenv(name, default)] over the process
    environment. *)
Definition getenv (environ : gmap string string) (name : string) : option string :=
  environ !! name.

Definition getenv_default (environ : gmap string string) (name fallback : string) : string :=
  default fallback (environ !! name).

Definition AUTH_USERNAME (environ : gmap string string) : string :=
  getenv_default environ "AUTH_USERNAME" "admin".

Definition AUTH_PASSWORD (environ : gmap string string) : option string :=
  getenv environ "AUTH_PASSWORD".

Record HTTPBasicCredentials : Type := { username : string; password : string }.

(** Python truthiness of an optional string: [None] and [""] are falsy. *)
Definition truthy (s : option string) : bool :=
  match s with
  | None => false
  | Some v => negb (String.eqb v "")
  end.

(** [secrets.compare_digest(a.encode("utf8"), b.encode("utf8"))]: equality
    of the two byte strings (the constant running time is not modelled). *)
Definition compare_digest (a b : string) : bool := String.eqb a b.

Definition invalid_credentials : Exn :=
  HTTPException 401 "Invalid credentials" [("WWW-Authenticate", "Basic")].

Definition verify_credentials (environ : gmap string string)
    (credentials : HTTPBasicCredentials) : Exn + string :=
  if negb (truthy (AUTH_PASSWORD environ)) then inr "anonymous"
  else
    let is_correct_username :=
      compare_digest (username credentials) (AUTH_USERNAME environ) in
    let is_correct_password :=
      compare_digest (password credentials) (default "" (AUTH_PASSWORD environ)) in
    if negb (is_correct_username && is_correct_password)
    then inl invalid_credentials
    else inr (username credentials).

End Auth.

(** ** Calls a handler makes *)

(** The functions [main.py] imports and calls, by name. *)
Inductive Call : Type :=
| uuid4
| load_conversation (conversation_id : string)
| save_conversation (conversation_id : string) (conversation : Conversation)
| delete_conversation (conversation_id : string)
| run_full_council (user_query : string)
| stage1_collect_responses (user_query : string)
| stage2_collect_rankings (user_query : string) (stage1_results : json)
| calculate_aggregate_rankings (stage2_results label_to_model : json)
| stage3_synthesize_final (user_query : string) (stage1_results stage2_results : json)
| generate_conversation_title (user_query : string).

(** What each call hands back to the handler when it returns. *)
Definition Resp (c : Call) : Type :=
  match c with
  | uuid4 => string
  | load_conversation _ => option Conversation
  | save_conversation _ _ => unit
  | delete_conversation _ => bool
  | run_full_council _ => json
  | stage1_collect_responses _ => json
  | stage2_collect_rankings _ _ => (json * json)%type
  | calculate_aggregate_rankings _ _ => json
  | stage3_synthesize_final _ _ _ => json
  | generate_conversation_title _ => string
  end.

(** The calls the handlers [await]: the coroutine is suspended there. *)
Definition awaited (c : Call) : bool :=
  match c with
  | run_full_council _ | stage1_collect_responses _ | stage2_collect_rankings _ _
  | stage3_synthesize_final _ _ _ | generate_conversation_title _ => true
  | _ => false
  end.

(** The calls that reach the council's remote models. *)
Definition council_call (c : Call) : bool :=
  match c with
  | run_full_council _ | stage1_collect_responses _ | stage2_collect_rankings _ _
  | stage3_synthesize_final _ _ _ | generate_conversation_title _ => true
  | _ => false
  end.

(** A handler body: it returns, raises, yields a chunk to the response
    stream (async generators only), or makes a call and goes on with the
    answer. *)
Inductive Prog (A : Type) : Type :=
| Ret (a : A)
| Raise (e : Exn)
| Yield (chunk : json) (k : Prog A)
| Do (c : Call) (k : Resp c → Prog A).

Arguments Ret {A} a.
Arguments Raise {A} e.
Arguments Yield {A} chunk k.
Arguments Do {A} c k.

(** Sequencing: run [p], then [f] on what it returned. *)
Fixpoint bind {A B : Type} (p : Prog A) (f : A → Prog B) : Prog B :=
  match p with
  | Ret a => f a
  | Raise e => Raise e
  | Yield chunk k => Yield chunk (bind k f)
  | Do c k => Do c (λ x, bind (k x) f)
  end.

Declare Scope prog_scope.
Delimit Scope prog_scope with prog.
Notation "'let!' x ':=' c 'in' k" := (Do c (λ x, k))
  (at level 10, x pattern, c at level 100, k at level 200) : prog_scope.
Notation "'run!' x ':=' p 'in' k" := (bind p (λ x, k))
  (at level 10, x pattern, p at level 100, k at level 200) : prog_scope.
Notation "'call!' c ';;' k" := (Do c (λ _, k))
  (at level 10, c at level 99, k at level 200) : prog_scope.
Notation "'yield!' e ';;' k" := (Yield e k)
  (at level 10, e at level 99, k at level 200) : prog_scope.

(** ** The handlers *)

Definition conversation_not_found : Exn :=
  HTTPException 404 "Conversation not found" [].

(** The payload of one server-sent event; the generator yields
    [f"data: {json.dumps(payload)}\n\n"], kept here as the payload. *)
Definition event (type : string) (rest : list (string * json)) : json :=
  JObj (("type", JStr type) :: rest).

Definition event_type (chunk : json) : option string :=
  match chunk with
  | JObj fields =>
      match get_field "type" fields with
      | Some (JStr t) => Some t
      | _ => None
      end
  | _ => None
  end.

Definition user_message (text : string) : Message :=
  {| role := "user"; content := JStr text |}.

Definition assistant_message (result : json) : Message :=
  {| role := "assistant"; content := result |}.

(** The assistant turn the streaming handler stores. *)
Definition council_result (stage1_results stage2_results stage3_result
    label_to_model aggregate_rankings : json) : json :=
  JObj [("stage1", stage1_results);
        ("stage2", stage2_results);
        ("stage3", stage3_result);
        ("metadata", JObj [("label_to_model", label_to_model);
                           ("aggregate_rankings", aggregate_rankings)])].

Section Handlers.
Local Open Scope prog_scope.

Definition create_conversation : Prog Conversation :=
  let! conversation_id := uuid4 in
  let conversation :=
    {| id := conversation_id; title := "New Conversation"; messages := [] |} in
  call! save_conversation conversation_id conversation ;;
  Ret conversation.

Definition get_conversation (conversation_id : string) : Prog Conversation :=
  let! conversation := load_conversation conversation_id in
  match conversation with
  | None => Raise conversation_not_found
  | Some conversation => Ret conversation
  end.

Definition delete_conversation_route (conversation_id : string) : Prog json :=
  let! deleted := delete_conversation conversation_id in
  if (deleted : bool) then Ret (JObj [("status", JStr "deleted")])
  else Raise conversation_not_found.

Definition send_message (conversation_id : string) (request_content : string)
    : Prog json :=
  let! conversation := load_conversation conversation_id in
  match conversation with
  | None => Raise conversation_not_found
  | Some conversation =>
      let! result := run_full_council request_content in
      let conversation := append_message conversation (user_message request_content) in
      let conversation := append_message conversation (assistant_message result) in
      run! conversation :=
        (if (length (messages conversation) =? 2)%nat then
           let! title := generate_conversation_title request_content in
           Ret (set_title conversation title)
         else Ret conversation) in
      call! save_conversation conversation_id conversation ;;
      Ret result
  end.

(** The async generator inside [send_message_stream]; [conversation] is the
    dict the handler loaded, which the generator updates as it goes. *)
Definition generate (conversation_id : string) (request_content : string)
    (conversation : Conversation) : Prog unit :=
  let conversation := append_message conversation (user_message request_content) in
  yield! event "stage1_start" [] ;;
  let! stage1_results := stage1_collect_responses request_content in
  yield! event "stage1_complete" [("data", stage1_results)] ;;
  yield! event "stage2_start" [] ;;
  let! (stage2_results, label_to_model) :=
    stage2_collect_rankings request_content stage1_results in
  let! aggregate_rankings :=
    calculate_aggregate_rankings stage2_results label_to_model in
  yield! event "stage2_complete"
    [("data", stage2_results);
     ("metadata", JObj [("label_to_model", label_to_model);
                        ("aggregate_rankings", aggregate_rankings)])] ;;
  yield! event "stage3_start" [] ;;
  let! stage3_result :=
    stage3_synthesize_final request_content stage1_results stage2_results in
  yield! event "stage3_complete" [("data", stage3_result)] ;;
  let conversation :=
    append_message conversation
      (assistant_message
         (council_result stage1_results stage2_results stage3_result
            label_to_model aggregate_rankings)) in
  run! conversation :=
    (if (length (messages conversation) =? 2)%nat then
       let! title := generate_conversation_title request_content in
       let conversation := set_title conversation title in
       yield! event "title_update" [("title", JStr title)] ;;
       Ret conversation
     else Ret conversation) in
  call! save_conversation conversation_id conversation ;;
  yield! event "done" [] ;;
  Ret ().

(** The handler proper: it answers 404 itself, or hands the generator to
    the streaming response. *)
Definition send_message_stream (conversation_id : string) (request_content : string)
    : Prog (Prog unit) :=
  let! conversation := load_conversation conversation_id in
  match conversation with
  | None => Raise conversation_not_found
  | Some conversation => Ret (generate conversation_id request_content conversation)
  end.

End Handlers.

(** ** The world the handlers run in *)

(** The answers of everything remote: the UUID generator and the council's
    model calls. A handler makes each council call at most once per request,
    so one answer per argument is enough.

    Modelled from the spec: the council module ([run_full_council], the three
    stage functions, [calculate_aggregate_rankings] and
    [generate_conversation_title]) is not among the sources. Following the
    design document, a stage or the whole pipeline either returns its data or
    fails the run with [AllMembersFailed] or [ChairmanUnavailable], which
    reaches the caller as a raised error; the rank aggregator is a pure
    function that does not fail; the title generator makes one auxiliary
    completion request and absorbs its failure (see
    [generate_conversation_title_impl]). *)
Record Remote : Type := {
  uuid_source : nat → string;
  council_run : string → RunFailure + json;
  stage1 : string → RunFailure + json;
  stage2 : string → json → RunFailure + (json * json);
  aggregate : json → json → json;
  stage3 : string → json → json → RunFailure + json;
  title_completion : string → option string
}.

(** Modelled from the spec: [generate_conversation_title] of the council
    module, which is not among the sources. It summarises the first user
    prompt with one auxiliary completion request; when that request fails the
    fallback title "New Conversation" is the result, and the failure is not
    raised. *)
Definition generate_conversation_title_impl (remote : Remote) (user_query : string)
    : string :=
  match title_completion remote user_query with
  | Some t => t
  | None => "New Conversation"
  end.

(** The state a request can change: the conversation store and the number of
    UUIDs drawn so far. *)
Record World : Type := {
  store : gmap string Conversation;
  drawn : nat
}.

Definition with_store (w : World) (s : gmap string Conversation) : World :=
  {| store := s; drawn := drawn w |}.

Definition raised {X : Type} (r : RunFailure + X) : Exn + X :=
  match r with
  | inl f => inl (RunError f)
  | inr x => inr x
  end.

(** The answer to one call, and the world after it.

    Modelled from the spec: the storage module ([load_conversation],
    [save_conversation], [delete_conversation]) is not among the sources. The
    design document describes the Conversation Store as on-disk persistence
    of conversations by id: loading hands out a copy of the stored
    conversation ([None] when there is none), saving replaces the stored
    conversation under that id, deleting reports whether there was one. *)
Definition answer (remote : Remote) (c : Call) (w : World) : (Exn + Resp c) * World :=
  match c return (Exn + Resp c) * World with
  | uuid4 =>
      (inr (uuid_source remote (drawn w)), {| store := store w; drawn := S (drawn w) |})
  | load_conversation conversation_id =>
      (inr (store w !! conversation_id), w)
  | save_conversation conversation_id conversation =>
      (inr (), with_store w (<[conversation_id := conversation]> (store w)))
  | delete_conversation conversation_id =>
      match store w !! conversation_id with
      | Some _ => (inr true, with_store w (delete conversation_id (store w)))
      | None => (inr false, w)
      end
  | run_full_council user_query =>
      (raised (council_run remote user_query), w)
  | stage1_collect_responses user_query =>
      (raised (stage1 remote user_query), w)
  | stage2_collect_rankings user_query stage1_results =>
      (raised (stage2 remote user_query stage1_results), w)
  | calculate_aggregate_rankings stage2_results label_to_model =>
      (inr (aggregate remote stage2_results label_to_model), w)
  | stage3_synthesize_final user_query stage1_results stage2_results =>
      (raised (stage3 remote user_query stage1_results stage2_results), w)
  | generate_conversation_title user_query =>
      (inr (generate_conversation_title_impl remote user_query), w)
  end.

(** What a run did that can be seen from outside, in order. *)
Inductive Action : Type :=
| Emit (chunk : json)
| Invoke (c : Call).

Inductive Outcome (A : Type) : Type :=
| Returned (a : A)
| Raised (e : Exn)
| Cancelled.

Arguments Returned {A} a.
Arguments Raised {A} e.
Arguments Cancelled {A}.

Record Run (A : Type) : Type := {
  outcome : Outcome A;
  final : World;
  trace : list Action
}.

Arguments outcome {A} _.
Arguments final {A} _.
Arguments trace {A} _.

Definition stop {A : Type} (o : Outcome A) (w : World) : Run A :=
  {| outcome := o; final := w; trace := [] |}.

Definition after {A : Type} (a : Action) (r : Run A) : Run A :=
  {| outcome := outcome r; final := final r; trace := a :: trace r |}.

(** The patience of the caller: [None] reads the response to its end;
    [Some n] disconnects when the run is suspended for the [n+1]-th time (at
    a [yield], once the chunk is handed over, or at an [await], with the call
    in flight), and the run is cancelled there. *)
Definition Patience : Type := option nat.

Definition suspend (patience : Patience) : option Patience :=
  match patience with
  | None => Some None
  | Some 0 => None
  | Some (S n) => Some (Some n)
  end.

Fixpoint exec {A : Type} (remote : Remote) (p : Prog A) (patience : Patience)
    (w : World) : Run A :=
  match p with
  | Ret a => stop (Returned a) w
  | Raise e => stop (Raised e) w
  | Yield chunk k =>
      after (Emit chunk)
        match suspend patience with
        | None => stop Cancelled w
        | Some patience' => exec remote k patience' w
        end
  | Do c k =>
      after (Invoke c)
        match (if awaited c then suspend patience else Some patience) with
        | None => stop Cancelled w
        | Some patience' =>
            match answer remote c w with
            | (inl e, w') => stop (Raised e) w'
            | (inr x, w') => exec remote (k x) patience' w'
            end
        end
  end.

(** A plain request: the handler runs to its end. *)
Definition handle {A : Type} (remote : Remote) (p : Prog A) (w : World) : Run A :=
  exec remote p None w.

(** A streaming request: the handler runs, and the streaming response then
    drives the generator it returned for as long as the caller listens. *)
Definition stream (remote : Remote) (conversation_id request_content : string)
    (patience : Patience) (w : World) : Run unit :=
  let r := handle remote (send_message_stream conversation_id request_content) w in
  match outcome r with
  | Returned body =>
      let r' := exec remote body patience (final r) in
      {| outcome := outcome r'; final := final r'; trace := trace r ++ trace r' |}
  | Raised e => {| outcome := Raised e; final := final r; trace := trace r |}
  | Cancelled => {| outcome := Cancelled; final := final r; trace := trace r |}
  end.

(** The chunks a run sent, and their event types. *)
Definition emitted (t : list Action) : list json :=
  omap (λ a, match a with Emit chunk => Some chunk | Invoke _ => None end) t.

Definition event_types (t : list Action) : list (option string) :=
  event_type <$> emitted t.

(** The calls a run made. *)
Definition invoked (t : list Action) : list Call :=
  omap (λ a, match a with Invoke c => Some c | Emit _ => None end) t.

(** ** A small concrete setting, to evaluate the handlers on *)

Module Demo.

Definition remote : Remote := {|
  uuid_source := λ n, if (n =? 0)%nat then "uuid-0" else "uuid-n";
  council_run := λ q, inr (JObj [("stage3", JStr ("answer to " ++ q))]);
  stage1 := λ q, inr (JList [JStr "a1"; JStr "a2"]);
  stage2 := λ q s1, inr (JList [JStr "r1"; JStr "r2"], JObj [("Response A", JStr "m1")]);
  aggregate := λ s2 l2m, JList [JStr "m1"];
  stage3 := λ q s1 s2, inr (JStr "final");
  title_completion := λ q, Some ("About " ++ q)
|}.

(** The same council, with every member failing at stage 1. *)
Definition stage1_down : Remote := {|
  uuid_source := uuid_source remote;
  council_run := λ q, inl (AllMembersFailed "stage1");
  stage1 := λ q, inl (AllMembersFailed "stage1");
  stage2 := stage2 remote;
  aggregate := aggregate remote;
  stage3 := stage3 remote;
  title_completion := title_completion remote
|}.

(** The same council, with the chairman out of reach. *)
Definition chairman_down : Remote := {|
  uuid_source := uuid_source remote;
  council_run := λ q, inl (ChairmanUnavailable "timeout");
  stage1 := stage1 remote;
  stage2 := stage2 remote;
  aggregate := aggregate remote;
  stage3 := λ q s1 s2, inl (ChairmanUnavailable "timeout");
  title_completion := title_completion remote
|}.

(** The same council, with the title request failing. *)
Definition title_down : Remote := {|
  uuid_source := uuid_source remote;
  council_run := council_run remote;
  stage1 := stage1 remote;
  stage2 := stage2 remote;
  aggregate := aggregate remote;
  stage3 := stage3 remote;
  title_completion := λ q, None
|}.

Definition fresh : Conversation :=
  {| id := "c1"; title := "New Conversation"; messages := [] |}.

Definition ongoing : Conversation :=
  {| id := "c2"; title := "About cats";
     messages := [user_message "cats?"; assistant_message (JStr "meow")] |}.

Definition world : World :=
  {| store := <["c2" := ongoing]> (<["c1" := fresh]> ∅); drawn := 0 |}.

End Demo.

(** ** The Rank Aggregator *)

Module RankAggregator.

Inductive Status : Type :=
| Ok
| Failed (reason : string)
| Malformed (raw_text : string).

Record Stage2Ranking : Type := {
  reviewer : string;
  ordered_labels : list string;
  status : Status
}.

Record AggregateEntry : Type := {
  model : string;
  score : nat;
  rank : nat
}.

Definition is_ok (r : Stage2Ranking) : bool :=
  match status r with
  | Ok => true
  | _ => false
  end.

Definition known (label_to_model : list (string * string)) (label : string) : bool :=
  existsb (λ entry, String.eqb entry.1 label) label_to_model.

(** Labels in the order they appear, without the unknown ones and without
    the later copies of a label already seen. *)
Fixpoint recognised (label_to_model : list (string * string)) (seen : list string)
    (labels : list string) : list string :=
  match labels with
  | [] => []
  | l :: rest =>
      if known label_to_model l && negb (existsb (String.eqb l) seen)
      then l :: recognised label_to_model (l :: seen) rest
      else recognised label_to_model seen rest
  end.

(** Position 0 of [L] labels is worth [L] points, position 1 [L-1], and so
    on down to 1; a label that is not listed is worth 0. *)
Fixpoint points (label : string) (labels : list string) : nat :=
  match labels with
  | [] => 0
  | l :: rest => if String.eqb l label then length labels else points label rest
  end.

(** What one reviewer gives to a label; nothing unless the ranking is Ok. *)
Definition contribution (label_to_model : list (string * string)) (label : string)
    (r : Stage2Ranking) : nat :=
  if is_ok r then points label (recognised label_to_model [] (ordered_labels r)) else 0.

Definition total (label_to_model : list (string * string))
    (stage2_results : list Stage2Ranking) (label : string) : nat :=
  sum_list_with (contribution label_to_model label) stage2_results.

(** Stable insertion by descending score: an entry goes in front of the
    entries that score no more than it does. *)
Fixpoint place (e : string * nat) (sorted : list (string * nat)) : list (string * nat) :=
  match sorted with
  | [] => [e]
  | e' :: rest => if (e'.2 <=? e.2)%nat then e :: sorted else e' :: place e rest
  end.

Definition by_score (entries : list (string * nat)) : list (string * nat) :=
  foldr place [] entries.

Definition ranked (entries : list (string * nat)) : list AggregateEntry :=
  imap (λ i e, {| model := e.1; score := e.2; rank := S i |}) entries.

(** Modelled from the spec: [calculate_aggregate_rankings] of the council
    module, which is not among the sources. The design document gives its
    contract: a pure function of the Stage-2 rankings and the label map;
    only Ok rankings count; each ranking of [L] labels gives [L] points to
    its first label, [L-1] to the next and so on, and nothing to a model it
    leaves out; points are summed per model; the result is sorted by total
    score, highest first, ties kept in configured member order, which is
    the order of the label map. *)
Definition calculate_aggregate_rankings (stage2_results : list Stage2Ranking)
    (label_to_model : list (string * string)) : list AggregateEntry :=
  ranked (by_score
    ((λ entry, (entry.2, total label_to_model stage2_results entry.1)) <$> label_to_model)).

(** The scoring example of the design document. *)
Definition example_labels : list (string * string) :=
  [("Response A", "model-a"); ("Response B", "model-b"); ("Response C", "model-c")].

Definition example_rankings : list Stage2Ranking :=
  [ {| reviewer := "model-a";
       ordered_labels := ["Response A"; "Response B"; "Response C"];
       status := Ok |};
    {| reviewer := "model-b";
       ordered_labels := ["Response B"; "Response A"; "Response C"];
       status := Ok |};
    {| reviewer := "model-c"; ordered_labels := []; status := Malformed "no idea" |} ].

End RankAggregator.

(** ** Statements under test *)

(** A response stream that ends the way the design document asks of a failed
    run: its last event is [error], and [done] was not sent. *)
Definition ends_with_error (t : list Action) : Prop :=
  last (event_types t) = Some (Some "error") ∧ Some "done" ∉ event_types t.

(** The first stage whose call fails the run, if any, with its failure. *)
Definition failing_stage (remote : Remote) (request_content : string)
    : option (nat * RunFailure) :=
  match stage1 remote request_content with
  | inl f => Some (1, f)
  | inr s1 =>
      match stage2 remote request_content s1 with
      | inl f => Some (2, f)
      | inr (s2, _) =>
          match stage3 remote request_content s1 s2 with
          | inl f => Some (3, f)
          | inr _ => None
          end
      end
  end.

(** The credential check as a reading of "unset means open, set means
    checked" would have it. *)
Definition checked_when_set (environ : gmap string string)
    (credentials : Auth.HTTPBasicCredentials) : Prop :=
  match Auth.AUTH_PASSWORD environ with
  | None => Auth.verify_credentials environ credentials = inr "anonymous"
  | Some secret =>
      if decide (Auth.username credentials = Auth.AUTH_USERNAME environ
                 ∧ Auth.password credentials = secret)
      then Auth.verify_credentials environ credentials = inr (Auth.username credentials)
      else Auth.verify_credentials environ credentials = inl Auth.invalid_credentials
  end.

(** The eight progress events of a first exchange, and the seven of a later
    one. *)
Definition first_exchange_events : list (option string) :=
  Some <$> ["stage1_start"; "stage1_complete"; "stage2_start"; "stage2_complete";
            "stage3_start"; "stage3_complete"; "title_update"; "done"].

Definition later_exchange_events : list (option string) :=
  Some <$> ["stage1_start"; "stage1_complete"; "stage2_start"; "stage2_complete";
            "stage3_start"; "stage3_complete"; "done"].

(** ** Routes behind the credential check *)


(** ** Reading a response stream *)

(** The first chunk of the given event type. *)
Fixpoint find_event (type : string) (chunks : list json) : option json :=
  match chunks with
  | [] => None
  | chunk :: rest =>
      match event_type chunk with
      | Some t => if String.eqb t type then Some chunk else find_event type rest
      | None => find_event type rest
      end
  end.

(** What a client reads under [key] in the event of the given type. *)
Definition payload (type key : string) (t : list Action) : option json :=
  match find_event type (emitted t) with
  | Some (JObj fields) => get_field key fields
  | _ => None
  end.

(** ** Serving the built frontend *)

Module Frontend.

Definition startswith_sep (s : string) : bool :=
  match s with
  | String c _ => String.eqb (String c "") "/"
  | EmptyString => false
  end.

Fixpoint endswith_sep (s : string) : bool :=
  match s with
  | EmptyString => false
  | String c EmptyString => String.eqb (String c "") "/"
  | String _ rest => endswith_sep rest
  end.

(** One step of [os.path.join] (POSIX): an absolute component replaces what
    came before; otherwise it is appended, with a separator unless the path
    so far is empty or already ends with one. *)
Definition join_step (path b : string) : string :=
  if startswith_sep b then b
  else if String.eqb path "" || endswith_sep path then path ++ b
  else path ++ "/" ++ b.

(** [os.path.join(a, *p)] *)
Definition join (a : string) (p : list string) : string :=
  foldl join_step a p.

(** What is on disk at a path, as far as the routes look. *)
Inductive Kind : Type := RegularFile | Directory.

Definition path_exists (fs : gmap string Kind) (p : string) : bool :=
  bool_decide (is_Some (fs !! p)).

Definition isfile (fs : gmap string Kind) (p : string) : bool :=
  match fs !! p with
  | Some RegularFile => true
  | _ => false
  end.

(** [FileResponse(path)], kept as the path it will send. *)
Record FileResponse : Type := { path : string }.

(** [here] is [os.path.dirname(__file__)]. *)
Definition frontend_path (here : string) : string :=
  join here [".."; "frontend"; "dist"].

(** The frontend routes exist only when the build directory does. *)
Definition frontend_mounted (fs : gmap string Kind) (here : string) : bool :=
  path_exists fs (frontend_path here).


Definition serve_frontend (fs : gmap string Kind) (here full_path : string)
    : FileResponse :=
  let file_path := join (frontend_path here) [full_path] in
  if path_exists fs file_path && isfile fs file_path
  then {| path := file_path |}
  else {| path := join (frontend_path here) ["index.html"] |}.

End Frontend.

(** ** Where the arguments of a call come from *)

(** A call of a streaming run on prompt [q] for conversation [cid] is well
    fed when its prompt is [q] and the data it is given is what the earlier
    stages returned for [q]. *)
Definition well_fed (remote : Remote) (cid q : string) (call : Call) : Prop :=
  match call with
  | load_conversation k => k = cid
  | stage1_collect_responses q' => q' = q
  | stage2_collect_rankings q' s1 => q' = q ∧ stage1 remote q = inr s1
  | calculate_aggregate_rankings s2 l2m =>
      ∃ s1, stage1 remote q = inr s1 ∧ stage2 remote q s1 = inr (s2, l2m)
  | stage3_synthesize_final q' s1 s2 =>
      q' = q ∧ stage1 remote q = inr s1 ∧ ∃ l2m, stage2 remote q s1 = inr (s2, l2m)
  | generate_conversation_title q' => q' = q
  | save_conversation k _ => k = cid
  | uuid4 | delete_conversation _ | run_full_council _ => False
  end.

(** * Properties *)

Example aggregate_scoring_example :
  RankAggregator.calculate_aggregate_rankings
    RankAggregator.example_rankings RankAggregator.example_labels
  = [ {| RankAggregator.model := "model-a"; RankAggregator.score := 5; RankAggregator.rank := 1 |};
      {| RankAggregator.model := "model-b"; RankAggregator.score := 5; RankAggregator.rank := 2 |};
      {| RankAggregator.model := "model-c"; RankAggregator.score := 2; RankAggregator.rank := 3 |} ].
Proof. reflexivity. Qed.

Example stream_first_exchange :
  event_types (trace (stream Demo.remote "c1" "hi" None Demo.world)) = first_exchange_events.
Proof. vm_compute. reflexivity. Qed.

Example stream_later_exchange :
  event_types (trace (stream Demo.remote "c2" "hi" None Demo.world)) = later_exchange_events.
Proof. vm_compute. reflexivity. Qed.

(** ** Helper facts *)

(** The test [len(conversation["messages"]) == 2] after the two appends holds
    exactly when the loaded conversation had no turns. *)
Lemma two_messages_iff_first (ms : list Message) (u a : Message) :
  (length ((ms ++ [u]) ++ [a]) =? 2)%nat = match ms with [] => true | _ => false end.
Proof.
  destruct ms as [|m ms]; [reflexivity|].
  apply Nat.eqb_neq. rewrite !length_app. simpl. lia.
Qed.

(** Case analysis along a run: on the caller's patience at each suspension
    point, on the answer of each stage, and on whether the exchange is the
    first one. *)
Ltac walk :=
  repeat (first [ progress cbn in * |
    match goal with
    | |- context [suspend ?p] => is_var p; destruct p as [[|?]|]
    | |- context [match ?n with 0 => _ | S _ => _ end] => is_var n; destruct n
    | |- context [raised ?x] => destruct x as [?|?] eqn:?
    | |- context [let (_, _) := ?x in _] => is_var x; destruct x
    | |- context [(length ((messages ?c ++ _) ++ _) =? 2)%nat] =>
        rewrite two_messages_iff_first in *; destruct (messages c) eqn:?
    end ]).

Ltac members :=
  rewrite ?elem_of_cons, ?elem_of_nil in *; intuition (try discriminate).

(** The generator has no [error] event to send: whatever the council answers
    and however long the caller listens, none is emitted. *)
Lemma stream_never_emits_error remote w conversation_id request_content patience :
  Some "error" ∉ event_types (trace (stream remote conversation_id request_content patience w)).
Proof.
  unfold stream, handle. cbn.
  destruct (store w !! conversation_id) as [c|] eqn:Hc; walk; members.
Qed.

(** A conversation that is in the store never gets the 404 answer. *)
Lemma present_conversation_no_404 remote w conversation_id request_content patience c :
  store w !! conversation_id = Some c →
  outcome (handle remote (get_conversation conversation_id) w) ≠ Raised conversation_not_found
  ∧ outcome (handle remote (delete_conversation_route conversation_id) w)
      ≠ Raised conversation_not_found
  ∧ outcome (handle remote (send_message conversation_id request_content) w)
      ≠ Raised conversation_not_found
  ∧ outcome (stream remote conversation_id request_content patience w)
      ≠ Raised conversation_not_found.
Proof.
  intros Hc. unfold stream, handle. cbn. rewrite Hc.
  repeat split; walk; discriminate.
Qed.

(** ** The streaming generator *)

(** C1. In streaming mode a successful run on a conversation's first exchange
    emits exactly the eight events stage1_start, stage1_complete,
    stage2_start, stage2_complete, stage3_start, stage3_complete,
    title_update, done, in this order and each once; on a later exchange it
    emits the same sequence without title_update. *)
Theorem stream_events_in_order remote w conversation_id request_content c s1 s2 l2m s3 :
  store w !! conversation_id = Some c →
  stage1 remote request_content = inr s1 →
  stage2 remote request_content s1 = inr (s2, l2m) →
  stage3 remote request_content s1 s2 = inr s3 →
  let r := stream remote conversation_id request_content None w in
  outcome r = Returned ()
  ∧ event_types (trace r) =
      (if decide (messages c = []) then first_exchange_events else later_exchange_events)
  ∧ NoDup (event_types (trace r)).
Proof.
  intros Hc H1 H2 H3. unfold stream, handle. cbn. rewrite Hc. cbn.
  rewrite H1. cbn. rewrite H2. cbn. rewrite H3. cbn.
  rewrite two_messages_iff_first.
  destruct (messages c) as [|m ms]; cbn.
  all: split; [reflexivity|]; split; [reflexivity|].
  all: apply NoDup_ListNoDup; repeat constructor; cbn; intuition discriminate.
Qed.

Lemma stream_events_in_order_witness :
  let r := stream Demo.remote "c1" "hi" None Demo.world in
  outcome r = Returned ()
  ∧ event_types (trace r) = first_exchange_events
  ∧ NoDup (event_types (trace r)).
Proof.
  apply (stream_events_in_order Demo.remote Demo.world "c1" "hi" Demo.fresh
           (JList [JStr "a1"; JStr "a2"]) (JList [JStr "r1"; JStr "r2"])
           (JObj [("Response A", JStr "m1")]) (JStr "final"));
    reflexivity.
Defined.

(** C2, as the code has it. When a stage fails the run, the stream stops
    after the progress events that precede the failure: the failure is raised
    out of the generator, and neither an [error] event nor [done] is sent. *)
Theorem stream_failure_stops remote w conversation_id request_content c stage failure :
  store w !! conversation_id = Some c →
  failing_stage remote request_content = Some (stage, failure) →
  let r := stream remote conversation_id request_content None w in
  outcome r = Raised (RunError failure)
  ∧ event_types (trace r) = take (2 * stage - 1) later_exchange_events
  ∧ (Some "error" ∉ event_types (trace r))
  ∧ (Some "done" ∉ event_types (trace r))
  ∧ final r = w.
Proof.
  intros Hc Hf. unfold failing_stage in Hf. unfold stream, handle. cbn. rewrite Hc. cbn.
  destruct (stage1 remote request_content) as [f1|s1] eqn:H1; cbn.
  { inversion Hf; subst. cbn. repeat split; members. }
  destruct (stage2 remote request_content s1) as [f2|[s2 l2m]] eqn:H2; cbn.
  { inversion Hf; subst. cbn. repeat split; members. }
  destruct (stage3 remote request_content s1 s2) as [f3|s3] eqn:H3; cbn.
  { inversion Hf; subst. cbn. repeat split; members. }
  discriminate.
Qed.

Lemma stream_failure_stops_witness :
  let r := stream Demo.chairman_down "c1" "hi" None Demo.world in
  outcome r = Raised (RunError (ChairmanUnavailable "timeout"))
  ∧ event_types (trace r) = take 5 later_exchange_events
  ∧ (Some "error" ∉ event_types (trace r))
  ∧ (Some "done" ∉ event_types (trace r))
  ∧ final r = Demo.world.
Proof.
  apply (stream_failure_stops Demo.chairman_down Demo.world "c1" "hi" Demo.fresh
           3 (ChairmanUnavailable "timeout")); reflexivity.
Defined.

(** C2, as stated, fails: with every member down at stage 1 the stream is the
    single event stage1_start, and its last event is not [error]. *)
Lemma stream_failure_no_error_event :
  failing_stage Demo.stage1_down "hi" = Some (1, AllMembersFailed "stage1")
  ∧ ¬ ends_with_error (trace (stream Demo.stage1_down "c1" "hi" None Demo.world)).
Proof.
  split; [reflexivity|]. intros [Hlast _]. vm_compute in Hlast. discriminate.
Qed.

(** C3. A streaming run that is cancelled or fails before stage 3 completes
    leaves the store as it was and never calls save_conversation; and
    whenever a streaming run does save, what it saves is the loaded
    conversation followed by the user prompt and the complete council result,
    stage 3 answer included. *)
Theorem unfinished_stream_saves_nothing remote w conversation_id request_content patience :
  let r := stream remote conversation_id request_content patience w in
  (Some "stage3_complete" ∉ event_types (trace r) →
     final r = w ∧ ∀ k c', save_conversation k c' ∉ invoked (trace r))
  ∧ (∀ k c', save_conversation k c' ∈ invoked (trace r) →
     ∃ c s1 s2 l2m s3,
       store w !! conversation_id = Some c
       ∧ stage1 remote request_content = inr s1
       ∧ stage2 remote request_content s1 = inr (s2, l2m)
       ∧ stage3 remote request_content s1 s2 = inr s3
       ∧ k = conversation_id
       ∧ id c' = id c
       ∧ messages c' =
           (messages c
              ++ [user_message request_content;
                  assistant_message
                    (council_result s1 s2 s3 l2m (aggregate remote s2 l2m))])%list).
Proof.
  unfold stream, handle. cbn.
  destruct (store w !! conversation_id) as [c|] eqn:Hc; cbn.
  2:{ split; [intros _; split; [reflexivity|intros k c']|intros k c']; members. }
  split.
  - walk.
    all: intros Hnot; try (exfalso; apply Hnot; rewrite !elem_of_cons; tauto).
    all: split; [reflexivity|]; intros k c'; members.
  - intros k c'. walk.
    all: intros Hin; rewrite ?elem_of_cons, ?elem_of_nil in Hin.
    all: repeat match goal with H : _ ∨ _ |- _ => destruct H as [H|H] end;
      try discriminate; try contradiction.
    all: injection Hin as -> ->; do 5 eexists; repeat split; try eassumption.
    all: cbn; rewrite <- ?app_assoc; cbn; congruence.
Qed.

Lemma unfinished_stream_saves_nothing_witness :
  let r := stream Demo.remote "c1" "hi" (Some 4) Demo.world in
  final r = Demo.world ∧ ∀ k c', save_conversation k c' ∉ invoked (trace r).
Proof.
  apply (proj1 (unfinished_stream_saves_nothing Demo.remote Demo.world "c1" "hi" (Some 4))).
  replace (event_types (trace (stream Demo.remote "c1" "hi" (Some 4) Demo.world)))
    with (take 3 later_exchange_events) by reflexivity.
  cbn. rewrite !elem_of_cons, elem_of_nil. intuition discriminate.
Defined.

(** ** The batch handler *)



(** ** The title *)

(** The streaming counterpart of C5: a failed title request leaves the stream
    on its usual course, with the fallback title in the title_update event
    and in the store. *)
Lemma title_failure_is_absorbed_stream remote w conversation_id request_content c s1 s2 l2m s3 :
  store w !! conversation_id = Some c →
  messages c = [] →
  stage1 remote request_content = inr s1 →
  stage2 remote request_content s1 = inr (s2, l2m) →
  stage3 remote request_content s1 s2 = inr s3 →
  title_completion remote request_content = None →
  let r := stream remote conversation_id request_content None w in
  outcome r = Returned ()
  ∧ event_types (trace r) = first_exchange_events
  ∧ title <$> (store (final r) !! conversation_id) = Some "New Conversation".
Proof.
  intros Hc Hm H1 H2 H3 Ht. unfold stream, handle. cbn. rewrite Hc. cbn.
  rewrite H1. cbn. rewrite H2. cbn. rewrite H3. cbn.
  rewrite two_messages_iff_first, Hm. cbn.
  unfold generate_conversation_title_impl. rewrite Ht.
  split; [reflexivity|]. split; [reflexivity|].
  rewrite lookup_insert_eq. reflexivity.
Qed.

(** C5. When the title request fails on a first exchange, send_message still
    returns the council result, and the stored conversation carries the
    fallback title "New Conversation". *)
Theorem title_failure_is_absorbed remote w conversation_id request_content c result :
  store w !! conversation_id = Some c →
  messages c = [] →
  council_run remote request_content = inr result →
  title_completion remote request_content = None →
  let r := handle remote (send_message conversation_id request_content) w in
  outcome r = Returned result
  ∧ title <$> (store (final r) !! conversation_id) = Some "New Conversation".
Proof.
  intros Hc Hm Hr Ht. unfold handle. cbn. rewrite Hc. cbn. rewrite Hr. cbn.
  rewrite two_messages_iff_first, Hm. cbn.
  unfold generate_conversation_title_impl. rewrite Ht.
  split; [reflexivity|]. rewrite lookup_insert_eq. reflexivity.
Qed.

Lemma title_failure_is_absorbed_witness :
  let r := handle Demo.title_down (send_message "c1" "hi") Demo.world in
  outcome r = Returned (JObj [("stage3", JStr "answer to hi")])
  ∧ title <$> (store (final r) !! "c1") = Some "New Conversation".
Proof.
  apply (title_failure_is_absorbed Demo.title_down Demo.world "c1" "hi" Demo.fresh
           (JObj [("stage3", JStr "answer to hi")])); reflexivity.
Defined.

(** C6. The title generator is called only on a conversation's first
    exchange (the loaded conversation has no turns, so it holds two after the
    appends), and then with the prompt of that exchange; it is called on
    every first exchange that gets through the pipeline; and a later exchange
    leaves the stored title as it was. *)
Theorem title_generated_on_first_exchange_only
    remote w conversation_id request_content patience c :
  store w !! conversation_id = Some c →
  let batch := handle remote (send_message conversation_id request_content) w in
  let streamed := stream remote conversation_id request_content patience w in
  (∀ q, generate_conversation_title q ∈ invoked (trace batch)
        ∨ generate_conversation_title q ∈ invoked (trace streamed) →
        messages c = []
        ∧ (∀ u a, length (messages (append_message (append_message c u) a)) = 2)
        ∧ q = request_content)
  ∧ (messages c = [] →
       (∀ result, outcome batch = Returned result →
          generate_conversation_title request_content ∈ invoked (trace batch))
       ∧ (outcome streamed = Returned () →
          generate_conversation_title request_content ∈ invoked (trace streamed)))
  ∧ (messages c ≠ [] →
       title <$> (store (final batch) !! conversation_id) = Some (title c)
       ∧ title <$> (store (final streamed) !! conversation_id) = Some (title c)).
Proof.
  intros Hc. unfold stream, handle. cbn. rewrite Hc. cbn.
  split; [|split].
  - intros q [Hin|Hin]; revert Hin; walk; intros Hin; members;
      try match goal with H : generate_conversation_title _ = _ |- _ =>
        injection H as -> end; auto.
    all: intros u a; cbn;
      match goal with H : messages _ = [] |- _ => rewrite H end; reflexivity.
  - intros Hm. split.
    + intros result. walk; try discriminate; intros _; members.
    + walk; try discriminate; intros _; members.
  - intros Hm. split; walk; try congruence;
      rewrite ?lookup_insert_eq, ?Hc; reflexivity.
Qed.

Lemma title_generated_on_first_exchange_only_witness :
  let batch := handle Demo.remote (send_message "c2" "dogs?") Demo.world in
  let streamed := stream Demo.remote "c2" "dogs?" None Demo.world in
  (∀ q, generate_conversation_title q ∈ invoked (trace batch)
        ∨ generate_conversation_title q ∈ invoked (trace streamed) →
        messages Demo.ongoing = []
        ∧ (∀ u a,
             length (messages (append_message (append_message Demo.ongoing u) a)) = 2)
        ∧ q = "dogs?")
  ∧ (messages Demo.ongoing = [] →
       (∀ result, outcome batch = Returned result →
          generate_conversation_title "dogs?" ∈ invoked (trace batch))
       ∧ (outcome streamed = Returned () →
          generate_conversation_title "dogs?" ∈ invoked (trace streamed)))
  ∧ (messages Demo.ongoing ≠ [] →
       title <$> (store (final batch) !! "c2") = Some (title Demo.ongoing)
       ∧ title <$> (store (final streamed) !! "c2") = Some (title Demo.ongoing)).
Proof.
  apply (title_generated_on_first_exchange_only Demo.remote Demo.world "c2" "dogs?" None
           Demo.ongoing); reflexivity.
Defined.

Example title_generated_on_first_exchange :
  generate_conversation_title "hi"
    ∈ invoked (trace (handle Demo.remote (send_message "c1" "hi") Demo.world))
  ∧ title <$> (store (final (stream Demo.remote "c1" "hi" None Demo.world)) !! "c1")
    = Some "About hi".
Proof.
  split; [|reflexivity].
  replace (invoked (trace (handle Demo.remote (send_message "c1" "hi") Demo.world)))
    with [load_conversation "c1"; run_full_council "hi"; generate_conversation_title "hi";
          save_conversation "c1"
            {| id := "c1"; title := "About hi";
               messages := [user_message "hi";
                            assistant_message (JObj [("stage3", JStr "answer to hi")])] |}]
    by reflexivity.
  members.
Qed.

(** ** The rank aggregator *)

Lemma total_permutation label_to_model rs rs' label :
  rs ≡ₚ rs' →
  RankAggregator.total label_to_model rs label = RankAggregator.total label_to_model rs' label.
Proof.
  intros Hperm. unfold RankAggregator.total.
  induction Hperm as [|r l l' _ IH|r r' l|l l' l'' _ IH1 _ IH2]; cbn.
  - reflexivity.
  - rewrite IH. reflexivity.
  - lia.
  - congruence.
Qed.

(** C7. The rank aggregator is a function of its arguments alone, and the
    order in which the Stage-2 rankings are supplied does not matter: two
    permutations of the same rankings give the same aggregate ranking. *)
Theorem aggregate_order_independent rs rs' label_to_model :
  rs ≡ₚ rs' →
  RankAggregator.calculate_aggregate_rankings rs label_to_model
  = RankAggregator.calculate_aggregate_rankings rs' label_to_model.
Proof.
  intros Hperm. unfold RankAggregator.calculate_aggregate_rankings.
  do 2 f_equal. apply list_fmap_ext. intros i entry _. cbn.
  f_equal. apply total_permutation, Hperm.
Qed.

Lemma aggregate_order_independent_witness :
  RankAggregator.calculate_aggregate_rankings
    RankAggregator.example_rankings RankAggregator.example_labels
  = RankAggregator.calculate_aggregate_rankings
      (reverse RankAggregator.example_rankings) RankAggregator.example_labels.
Proof.
  apply (aggregate_order_independent RankAggregator.example_rankings
           (reverse RankAggregator.example_rankings) RankAggregator.example_labels).
  symmetry. apply reverse_Permutation.
Defined.

(** ** Conversations *)

(** C8. For a conversation id that is not in the store, get_conversation,
    delete_conversation, send_message and send_message_stream all answer
    404 "Conversation not found", leave the store as it was and make no
    council call; and none of them gives that answer for an id that is in
    the store. *)
Theorem missing_conversation_404 remote w conversation_id request_content patience :
  let r1 := handle remote (get_conversation conversation_id) w in
  let r2 := handle remote (delete_conversation_route conversation_id) w in
  let r3 := handle remote (send_message conversation_id request_content) w in
  let r4 := stream remote conversation_id request_content patience w in
  (store w !! conversation_id = None →
     (outcome r1 = Raised conversation_not_found ∧ final r1 = w
        ∧ filter council_call (invoked (trace r1)) = [])
     ∧ (outcome r2 = Raised conversation_not_found ∧ final r2 = w
        ∧ filter council_call (invoked (trace r2)) = [])
     ∧ (outcome r3 = Raised conversation_not_found ∧ final r3 = w
        ∧ filter council_call (invoked (trace r3)) = [])
     ∧ (outcome r4 = Raised conversation_not_found ∧ final r4 = w
        ∧ filter council_call (invoked (trace r4)) = []))
  ∧ (is_Some (store w !! conversation_id) →
     outcome r1 ≠ Raised conversation_not_found
     ∧ outcome r2 ≠ Raised conversation_not_found
     ∧ outcome r3 ≠ Raised conversation_not_found
     ∧ outcome r4 ≠ Raised conversation_not_found).
Proof.
  cbn zeta. split.
  - intros Habsent. unfold stream, handle. cbn. rewrite Habsent. cbn. repeat split.
  - intros [c Hc]. eapply present_conversation_no_404, Hc.
Qed.

Lemma missing_conversation_404_witness :
  let r1 := handle Demo.remote (get_conversation "nope") Demo.world in
  let r2 := handle Demo.remote (delete_conversation_route "nope") Demo.world in
  let r3 := handle Demo.remote (send_message "nope" "hi") Demo.world in
  let r4 := stream Demo.remote "nope" "hi" None Demo.world in
  (outcome r1 = Raised conversation_not_found ∧ final r1 = Demo.world
     ∧ filter council_call (invoked (trace r1)) = [])
  ∧ (outcome r2 = Raised conversation_not_found ∧ final r2 = Demo.world
     ∧ filter council_call (invoked (trace r2)) = [])
  ∧ (outcome r3 = Raised conversation_not_found ∧ final r3 = Demo.world
     ∧ filter council_call (invoked (trace r3)) = [])
  ∧ (outcome r4 = Raised conversation_not_found ∧ final r4 = Demo.world
     ∧ filter council_call (invoked (trace r4)) = []).
Proof.
  apply (proj1 (missing_conversation_404 Demo.remote Demo.world "nope" "hi" None)).
  reflexivity.
Defined.

(** C10. create_conversation stores and returns a conversation titled
    "New Conversation" with no messages, whose id is the UUID drawn for this
    call, which is also the key it is stored under. *)
Theorem create_conversation_new remote w :
  let r := handle remote create_conversation w in
  let conversation_id := uuid_source remote (drawn w) in
  let conversation :=
    {| id := conversation_id; title := "New Conversation"; messages := [] |} in
  outcome r = Returned conversation
  ∧ store (final r) = <[conversation_id := conversation]> (store w)
  ∧ store (final r) !! conversation_id = Some conversation
  ∧ invoked (trace r) = [uuid4; save_conversation conversation_id conversation].
Proof.
  cbn. repeat split. apply lookup_insert_eq.
Qed.

(** ** Credentials *)

(** C9, as the code has it. With AUTH_PASSWORD unset or empty every request
    is accepted as "anonymous"; with a non-empty AUTH_PASSWORD the supplied
    username is returned exactly when the username is AUTH_USERNAME and the
    password is AUTH_PASSWORD, and otherwise 401 is raised with the
    WWW-Authenticate: Basic header. *)
Theorem verify_credentials_checked environ credentials :
  (Auth.AUTH_PASSWORD environ = None ∨ Auth.AUTH_PASSWORD environ = Some "" →
     Auth.verify_credentials environ credentials = inr "anonymous")
  ∧ (∀ secret, Auth.AUTH_PASSWORD environ = Some secret → secret ≠ "" →
       Auth.verify_credentials environ credentials =
         if decide (Auth.username credentials = Auth.AUTH_USERNAME environ
                    ∧ Auth.password credentials = secret)
         then inr (Auth.username credentials)
         else inl (HTTPException 401 "Invalid credentials" [("WWW-Authenticate", "Basic")])).
Proof.
  unfold Auth.verify_credentials, Auth.compare_digest. split.
  - intros [-> | ->]; reflexivity.
  - intros secret -> Hsecret. cbn.
    destruct (String.eqb_spec secret "") as [|_]; [contradiction|]. cbn.
    destruct (String.eqb_spec (Auth.username credentials) (Auth.AUTH_USERNAME environ));
      destruct (String.eqb_spec (Auth.password credentials) secret); cbn;
      case_decide; try reflexivity; intuition.
Qed.

Lemma verify_credentials_checked_witness :
  Auth.verify_credentials {["AUTH_PASSWORD" := "s3cret"]}
    {| Auth.username := "admin"; Auth.password := "s3cret" |} = inr "admin".
Proof.
  rewrite (proj2 (verify_credentials_checked {["AUTH_PASSWORD" := "s3cret"]}
                    {| Auth.username := "admin"; Auth.password := "s3cret" |}) "s3cret");
    [|reflexivity|discriminate].
  rewrite decide_True; [reflexivity|split; reflexivity].
Defined.

(** C9, as stated, fails: with AUTH_PASSWORD set to the empty string a
    request with a wrong username and password is accepted as "anonymous"
    instead of being refused. *)
Lemma empty_password_accepts_anyone :
  Auth.AUTH_PASSWORD {["AUTH_PASSWORD" := ""]} = Some ""
  ∧ ¬ checked_when_set {["AUTH_PASSWORD" := ""]}
        {| Auth.username := "mallory"; Auth.password := "guess" |}.
Proof.
  split; [reflexivity|]. intros H. vm_compute in H. discriminate.
Qed.

(** * Further properties of the handlers *)

(** Membership in a list that is written out. *)
Ltac pick :=
  apply list_elem_of_In; cbn; solve [ repeat first [ left; reflexivity | right ] ].

(** ** The response stream, whatever happens *)

(** However long the caller listens and whatever the council answers, the
    event types sent so far are an initial part of the sequence of the
    exchange: the eight events when the loaded conversation has no turns, the
    seven without title_update when it has some, and nothing at all when the
    conversation does not exist. *)
Theorem stream_events_are_a_prefix remote w conversation_id request_content patience :
  let r := stream remote conversation_id request_content patience w in
  event_types (trace r) `prefix_of`
    match store w !! conversation_id with
    | Some c => if decide (messages c = []) then first_exchange_events
                else later_exchange_events
    | None => []
    end.
Proof.
  unfold stream, handle. cbn.
  destruct (store w !! conversation_id) as [c|] eqn:Hc; cbn; [|by exists []].
  destruct (decide (messages c = [])) as [Hm|Hm].
  - walk; try congruence; eexists; reflexivity.
  - walk; try congruence; eexists; reflexivity.
Qed.

(** The [done] event is sent exactly when the conversation has been saved,
    and the store then holds what was saved: a caller that reads [done] can
    rely on the exchange being stored. *)
Theorem done_iff_saved remote w conversation_id request_content patience :
  let r := stream remote conversation_id request_content patience w in
  (Some "done" ∈ event_types (trace r)
   ↔ ∃ c', save_conversation conversation_id c' ∈ invoked (trace r))
  ∧ (∀ k c', save_conversation k c' ∈ invoked (trace r) →
       store (final r) !! conversation_id = Some c').
Proof.
  unfold stream, handle. cbn.
  destruct (store w !! conversation_id) as [c|] eqn:Hc; walk.
  all: split; [split; [intros Hin|intros [c' Hin]]|intros k c' Hin].
  all: rewrite ?elem_of_cons, ?elem_of_nil in Hin.
  all: repeat match goal with H : _ ∨ _ |- _ => destruct H as [H|H] end;
    try discriminate; try contradiction.
  all: try (eexists; pick).
  all: try pick.
  all: try (injection Hin as -> ->; apply lookup_insert_eq).
Qed.

Lemma done_iff_saved_witness :
  Some "done" ∈ event_types (trace (stream Demo.remote "c2" "dogs?" None Demo.world)).
Proof.
  apply (proj2 (proj1 (done_iff_saved Demo.remote Demo.world "c2" "dogs?" None))).
  eexists.
  replace (invoked (trace (stream Demo.remote "c2" "dogs?" None Demo.world)))
    with [load_conversation "c2"; stage1_collect_responses "dogs?";
          stage2_collect_rankings "dogs?" (JList [JStr "a1"; JStr "a2"]);
          calculate_aggregate_rankings (JList [JStr "r1"; JStr "r2"])
            (JObj [("Response A", JStr "m1")]);
          stage3_synthesize_final "dogs?" (JList [JStr "a1"; JStr "a2"])
            (JList [JStr "r1"; JStr "r2"]);
          save_conversation "c2"
            (append_message (append_message Demo.ongoing (user_message "dogs?"))
               (assistant_message
                  (council_result (JList [JStr "a1"; JStr "a2"])
                     (JList [JStr "r1"; JStr "r2"]) (JStr "final")
                     (JObj [("Response A", JStr "m1")]) (JList [JStr "m1"]))))]
    by reflexivity.
  pick.
Defined.

(** A caller that disconnects once stage3_complete has been sent, but before
    the save, loses the exchange: on a first exchange this covers the whole
    of title generation. The final answer was shown, and nothing is stored. *)
Theorem answer_shown_but_not_saved remote w conversation_id request_content c s1 s2 l2m s3 n :
  store w !! conversation_id = Some c →
  stage1 remote request_content = inr s1 →
  stage2 remote request_content s1 = inr (s2, l2m) →
  stage3 remote request_content s1 s2 = inr s3 →
  n = 8 ∨ (messages c = [] ∧ (n = 9 ∨ n = 10)) →
  let r := stream remote conversation_id request_content (Some n) w in
  outcome r = Cancelled
  ∧ Some "stage3_complete" ∈ event_types (trace r)
  ∧ payload "stage3_complete" "data" (trace r) = Some s3
  ∧ final r = w.
Proof.
  intros Hc H1 H2 H3 Hn. unfold stream, handle. cbn. rewrite Hc. cbn.
  rewrite H1. cbn.
  destruct Hn as [->|[Hm [->| ->]]]; cbn; rewrite H2; cbn; rewrite H3; cbn.
  2,3: rewrite two_messages_iff_first, Hm; cbn.
  all: repeat split; pick.
Qed.

Lemma answer_shown_but_not_saved_witness :
  let r := stream Demo.remote "c1" "hi" (Some 9) Demo.world in
  outcome r = Cancelled
  ∧ Some "stage3_complete" ∈ event_types (trace r)
  ∧ payload "stage3_complete" "data" (trace r) = Some (JStr "final")
  ∧ final r = Demo.world.
Proof.
  apply (answer_shown_but_not_saved Demo.remote Demo.world "c1" "hi" Demo.fresh
           (JList [JStr "a1"; JStr "a2"]) (JList [JStr "r1"; JStr "r2"])
           (JObj [("Response A", JStr "m1")]) (JStr "final") 9);
    try reflexivity.
  right. split; [reflexivity|left; reflexivity].
Defined.

(** What a streaming run saves is what it streamed: the assistant turn it
    stores is built from the data of the stage1_complete, stage2_complete and
    stage3_complete events it sent, the stored title is the one of its
    title_update event when there is one. *)
Theorem stream_saves_what_it_streamed remote w conversation_id request_content patience k c' :
  let r := stream remote conversation_id request_content patience w in
  save_conversation k c' ∈ invoked (trace r) →
  ∃ d1 d2 d3 meta,
    payload "stage1_complete" "data" (trace r) = Some d1
    ∧ payload "stage2_complete" "data" (trace r) = Some d2
    ∧ payload "stage2_complete" "metadata" (trace r) = Some meta
    ∧ payload "stage3_complete" "data" (trace r) = Some d3
    ∧ last (messages c') =
        Some (assistant_message
                (JObj [("stage1", d1); ("stage2", d2); ("stage3", d3); ("metadata", meta)]))
    ∧ (∀ t, payload "title_update" "title" (trace r) = Some t → t = JStr (title c')).
Proof.
  unfold stream, handle. cbn.
  destruct (store w !! conversation_id) as [c|] eqn:Hc; walk.
  all: intros Hin; rewrite ?elem_of_cons, ?elem_of_nil in Hin.
  all: repeat match goal with H : _ ∨ _ |- _ => destruct H as [H|H] end;
    try discriminate; try contradiction.
  all: injection Hin as -> ->; do 4 eexists; cbn.
  all: repeat (split; [reflexivity|]); split.
  all: try (intros t Ht; congruence).
  all: try match goal with H : messages _ = _ |- _ => rewrite H end; cbn; try reflexivity.
  all: rewrite ?app_comm_cons; apply last_snoc.
Qed.

Lemma stream_saves_what_it_streamed_witness :
  let r := stream Demo.remote "c1" "hi" None Demo.world in
  ∃ d1 d2 d3 meta,
    payload "stage1_complete" "data" (trace r) = Some d1
    ∧ payload "stage2_complete" "data" (trace r) = Some d2
    ∧ payload "stage2_complete" "metadata" (trace r) = Some meta
    ∧ payload "stage3_complete" "data" (trace r) = Some d3
    ∧ last (messages
              (set_title
                 (append_message (append_message Demo.fresh (user_message "hi"))
                    (assistant_message
                       (council_result (JList [JStr "a1"; JStr "a2"])
                          (JList [JStr "r1"; JStr "r2"]) (JStr "final")
                          (JObj [("Response A", JStr "m1")]) (JList [JStr "m1"]))))
                 "About hi")) =
        Some (assistant_message
                (JObj [("stage1", d1); ("stage2", d2); ("stage3", d3); ("metadata", meta)]))
    ∧ (∀ t, payload "title_update" "title" (trace r) = Some t → t = JStr "About hi").
Proof.
  apply (stream_saves_what_it_streamed Demo.remote Demo.world "c1" "hi" None "c1").
  replace (invoked (trace (stream Demo.remote "c1" "hi" None Demo.world)))
    with [load_conversation "c1"; stage1_collect_responses "hi";
          stage2_collect_rankings "hi" (JList [JStr "a1"; JStr "a2"]);
          calculate_aggregate_rankings (JList [JStr "r1"; JStr "r2"])
            (JObj [("Response A", JStr "m1")]);
          stage3_synthesize_final "hi" (JList [JStr "a1"; JStr "a2"])
            (JList [JStr "r1"; JStr "r2"]);
          generate_conversation_title "hi";
          save_conversation "c1"
            (set_title
               (append_message (append_message Demo.fresh (user_message "hi"))
                  (assistant_message
                     (council_result (JList [JStr "a1"; JStr "a2"])
                        (JList [JStr "r1"; JStr "r2"]) (JStr "final")
                        (JObj [("Response A", JStr "m1")]) (JList [JStr "m1"]))))
               "About hi")]
    by reflexivity.
  pick.
Defined.

(** ** The batch handler, when the council fails *)

(** When run_full_council fails, send_message raises that failure and stops
    there: the user prompt is not stored, the title generator is not called,
    and the store is as it was. *)
Theorem send_message_failure_saves_nothing remote w conversation_id request_content c failure :
  store w !! conversation_id = Some c →
  council_run remote request_content = inl failure →
  let r := handle remote (send_message conversation_id request_content) w in
  outcome r = Raised (RunError failure)
  ∧ final r = w
  ∧ invoked (trace r)
    = [load_conversation conversation_id; run_full_council request_content].
Proof.
  intros Hc Hf. unfold handle. cbn. rewrite Hc. cbn. rewrite Hf. cbn.
  repeat split.
Qed.

Lemma send_message_failure_saves_nothing_witness :
  let r := handle Demo.chairman_down (send_message "c1" "hi") Demo.world in
  outcome r = Raised (RunError (ChairmanUnavailable "timeout"))
  ∧ final r = Demo.world
  ∧ invoked (trace r) = [load_conversation "c1"; run_full_council "hi"].
Proof.
  apply (send_message_failure_saves_nothing Demo.chairman_down Demo.world "c1" "hi"
           Demo.fresh (ChairmanUnavailable "timeout")); reflexivity.
Defined.

(** When the pipeline returns, send_message makes its calls in this order:
    one load, the council, the title generator on a first exchange only, and
    one save at the end, of the conversation with the two new turns and, on a
    first exchange, the new title. *)
Theorem send_message_call_sequence remote w conversation_id request_content c result :
  store w !! conversation_id = Some c →
  council_run remote request_content = inr result →
  let r := handle remote (send_message conversation_id request_content) w in
  let extended :=
    append_message (append_message c (user_message request_content))
      (assistant_message result) in
  invoked (trace r) =
    if decide (messages c = []) then
      [load_conversation conversation_id; run_full_council request_content;
       generate_conversation_title request_content;
       save_conversation conversation_id
         (set_title extended (generate_conversation_title_impl remote request_content))]
    else
      [load_conversation conversation_id; run_full_council request_content;
       save_conversation conversation_id extended].
Proof.
  intros Hc Hr. unfold handle. cbn. rewrite Hc. cbn. rewrite Hr. cbn.
  rewrite two_messages_iff_first.
  destruct (messages c) as [|m ms] eqn:Hm; cbn; reflexivity.
Qed.

Lemma send_message_call_sequence_witness :
  invoked (trace (handle Demo.remote (send_message "c2" "dogs?") Demo.world)) =
    [load_conversation "c2"; run_full_council "dogs?";
     save_conversation "c2"
       (append_message (append_message Demo.ongoing (user_message "dogs?"))
          (assistant_message (JObj [("stage3", JStr "answer to dogs?")])))].
Proof.
  rewrite (send_message_call_sequence Demo.remote Demo.world "c2" "dogs?" Demo.ongoing
             (JObj [("stage3", JStr "answer to dogs?")])); reflexivity.
Defined.

(** ** The title generator is paid for only after the pipeline *)

(** In a streaming run the title generator is called only once stage 3 has
    answered and stage3_complete has been sent; a run that fails or is
    cancelled earlier never calls it. *)
Theorem title_only_after_stage3 remote w conversation_id request_content patience q :
  let r := stream remote conversation_id request_content patience w in
  generate_conversation_title q ∈ invoked (trace r) →
  Some "stage3_complete" ∈ event_types (trace r)
  ∧ ∃ s1 s2 l2m s3,
      stage1 remote request_content = inr s1
      ∧ stage2 remote request_content s1 = inr (s2, l2m)
      ∧ stage3 remote request_content s1 s2 = inr s3.
Proof.
  unfold stream, handle. cbn.
  destruct (store w !! conversation_id) as [c|] eqn:Hc; walk.
  all: intros Hin; rewrite ?elem_of_cons, ?elem_of_nil in Hin.
  all: repeat match goal with H : _ ∨ _ |- _ => destruct H as [H|H] end;
    try discriminate; try contradiction.
  all: split; [pick|do 4 eexists; repeat split; eassumption].
Qed.

Lemma title_only_after_stage3_witness :
  let r := stream Demo.remote "c1" "hi" (Some 9) Demo.world in
  Some "stage3_complete" ∈ event_types (trace r)
  ∧ ∃ s1 s2 l2m s3,
      stage1 Demo.remote "hi" = inr s1
      ∧ stage2 Demo.remote "hi" s1 = inr (s2, l2m)
      ∧ stage3 Demo.remote "hi" s1 s2 = inr s3.
Proof.
  apply (title_only_after_stage3 Demo.remote Demo.world "c1" "hi" (Some 9) "hi").
  replace (invoked (trace (stream Demo.remote "c1" "hi" (Some 9) Demo.world)))
    with [load_conversation "c1"; stage1_collect_responses "hi";
          stage2_collect_rankings "hi" (JList [JStr "a1"; JStr "a2"]);
          calculate_aggregate_rankings (JList [JStr "r1"; JStr "r2"])
            (JObj [("Response A", JStr "m1")]);
          stage3_synthesize_final "hi" (JList [JStr "a1"; JStr "a2"])
            (JList [JStr "r1"; JStr "r2"]);
          generate_conversation_title "hi"]
    by reflexivity.
  pick.
Defined.

(** ** Only the addressed conversation changes *)

(** get_conversation, delete_conversation, send_message and the streaming
    handler leave every other conversation of the store as it is, whatever
    their outcome; get_conversation changes nothing at all. *)
Theorem other_conversations_untouched remote w conversation_id request_content patience k :
  k ≠ conversation_id →
  store (final (handle remote (get_conversation conversation_id) w)) !! k = store w !! k
  ∧ store (final (handle remote (delete_conversation_route conversation_id) w)) !! k
    = store w !! k
  ∧ store (final (handle remote (send_message conversation_id request_content) w)) !! k
    = store w !! k
  ∧ store (final (stream remote conversation_id request_content patience w)) !! k
    = store w !! k
  ∧ final (handle remote (get_conversation conversation_id) w) = w.
Proof.
  intros Hk. unfold stream, handle. cbn.
  destruct (store w !! conversation_id) as [c|] eqn:Hc; cbn.
  2: repeat split.
  split; [reflexivity|]. split; [apply lookup_delete_ne; congruence|].
  split; [|split; [|reflexivity]].
  - walk; try reflexivity; apply lookup_insert_ne; congruence.
  - walk; try reflexivity; apply lookup_insert_ne; congruence.
Qed.

Lemma other_conversations_untouched_witness :
  store (final (handle Demo.remote (get_conversation "c1") Demo.world)) !! "c2"
    = store Demo.world !! "c2"
  ∧ store (final (handle Demo.remote (delete_conversation_route "c1") Demo.world)) !! "c2"
    = store Demo.world !! "c2"
  ∧ store (final (handle Demo.remote (send_message "c1" "hi") Demo.world)) !! "c2"
    = store Demo.world !! "c2"
  ∧ store (final (stream Demo.remote "c1" "hi" None Demo.world)) !! "c2"
    = store Demo.world !! "c2"
  ∧ final (handle Demo.remote (get_conversation "c1") Demo.world) = Demo.world.
Proof.
  apply (other_conversations_untouched Demo.remote Demo.world "c1" "hi" None "c2").
  discriminate.
Defined.

(** ** Life of a conversation *)

(** Deleting a stored conversation answers [{"status": "deleted"}] and
    removes it; the conversation is then gone for get_conversation, for
    send_message and for a second delete, which all answer 404. *)
Theorem delete_then_gone remote w conversation_id request_content c :
  store w !! conversation_id = Some c →
  let r := handle remote (delete_conversation_route conversation_id) w in
  outcome r = Returned (JObj [("status", JStr "deleted")])
  ∧ store (final r) = delete conversation_id (store w)
  ∧ outcome (handle remote (get_conversation conversation_id) (final r))
    = Raised conversation_not_found
  ∧ outcome (handle remote (send_message conversation_id request_content) (final r))
    = Raised conversation_not_found
  ∧ outcome (handle remote (delete_conversation_route conversation_id) (final r))
    = Raised conversation_not_found.
Proof.
  intros Hc. unfold handle. cbn. rewrite Hc. cbn.
  rewrite !lookup_delete_eq. cbn. repeat split.
Qed.

Lemma delete_then_gone_witness :
  let r := handle Demo.remote (delete_conversation_route "c2") Demo.world in
  outcome r = Returned (JObj [("status", JStr "deleted")])
  ∧ store (final r) = delete "c2" (store Demo.world)
  ∧ outcome (handle Demo.remote (get_conversation "c2") (final r))
    = Raised conversation_not_found
  ∧ outcome (handle Demo.remote (send_message "c2" "hi") (final r))
    = Raised conversation_not_found
  ∧ outcome (handle Demo.remote (delete_conversation_route "c2") (final r))
    = Raised conversation_not_found.
Proof.
  apply (delete_then_gone Demo.remote Demo.world "c2" "hi" Demo.ongoing). reflexivity.
Defined.

(** A conversation just created can be fetched back as it was returned; the
    first message sent to it stores the two turns under the generated title,
    and a second message adds two more turns and keeps that title. *)
Theorem new_conversation_first_message_sets_title remote w q1 q2 result1 result2 :
  council_run remote q1 = inr result1 →
  council_run remote q2 = inr result2 →
  let created := handle remote create_conversation w in
  let conversation_id := uuid_source remote (drawn w) in
  let first := handle remote (send_message conversation_id q1) (final created) in
  let second := handle remote (send_message conversation_id q2) (final first) in
  outcome (handle remote (get_conversation conversation_id) (final created))
    = outcome created
  ∧ store (final first) !! conversation_id =
      Some {| id := conversation_id;
              title := generate_conversation_title_impl remote q1;
              messages := [user_message q1; assistant_message result1] |}
  ∧ store (final second) !! conversation_id =
      Some {| id := conversation_id;
              title := generate_conversation_title_impl remote q1;
              messages := [user_message q1; assistant_message result1;
                           user_message q2; assistant_message result2] |}
  ∧ generate_conversation_title q2 ∉ invoked (trace second).
Proof.
  intros H1 H2. unfold handle. cbn. rewrite !lookup_insert_eq. cbn.
  rewrite H1. cbn. rewrite !lookup_insert_eq. cbn. rewrite H2. cbn.
  rewrite !lookup_insert_eq. repeat split.
  rewrite !elem_of_cons, elem_of_nil. intuition discriminate.
Qed.

Lemma new_conversation_first_message_sets_title_witness :
  let created := handle Demo.remote create_conversation Demo.world in
  let first := handle Demo.remote (send_message "uuid-0" "hi") (final created) in
  let second := handle Demo.remote (send_message "uuid-0" "more") (final first) in
  outcome (handle Demo.remote (get_conversation "uuid-0") (final created))
    = outcome created
  ∧ store (final first) !! "uuid-0" =
      Some {| id := "uuid-0"; title := "About hi";
              messages := [user_message "hi";
                           assistant_message (JObj [("stage3", JStr "answer to hi")])] |}
  ∧ store (final second) !! "uuid-0" =
      Some {| id := "uuid-0"; title := "About hi";
              messages := [user_message "hi";
                           assistant_message (JObj [("stage3", JStr "answer to hi")]);
                           user_message "more";
                           assistant_message (JObj [("stage3", JStr "answer to more")])] |}
  ∧ generate_conversation_title "more" ∉ invoked (trace second).
Proof.
  apply (new_conversation_first_message_sets_title Demo.remote Demo.world "hi" "more"
           (JObj [("stage3", JStr "answer to hi")])
           (JObj [("stage3", JStr "answer to more")])); reflexivity.
Defined.

(** ** Two streams on one conversation *)

(** A generator that runs to its end stores the copy it was given, with the
    two new turns, over whatever the store holds under that id by then. *)
Lemma generate_saves_its_copy remote w conversation_id q c s1 s2 l2m s3 :
  stage1 remote q = inr s1 →
  stage2 remote q s1 = inr (s2, l2m) →
  stage3 remote q s1 s2 = inr s3 →
  messages <$> (store (final (exec remote (generate conversation_id q c) None w))
                !! conversation_id) =
    Some (messages c ++
            [user_message q;
             assistant_message (council_result s1 s2 s3 l2m (aggregate remote s2 l2m))])%list.
Proof.
  intros H1 H2 H3. cbn. rewrite H1. cbn. rewrite H2. cbn. rewrite H3. cbn.
  rewrite two_messages_iff_first.
  destruct (messages c) as [|m ms] eqn:Hm; cbn.
  all: rewrite lookup_insert_eq; cbn; rewrite Hm, <- ?app_assoc; reflexivity.
Qed.

(** The streaming handler loads the conversation when the request arrives
    and its generator saves that copy, extended, without reading the store
    again. When two requests on the same conversation are both accepted
    before either generator has run, the generator that finishes last
    overwrites what the other saved: the stored conversation holds the turns
    of the second exchange only. *)
Theorem overlapping_streams_lose_an_exchange
    remote w conversation_id q1 q2 c s1 s2 l2m s3 s1' s2' l2m' s3' body1 body2 :
  store w !! conversation_id = Some c →
  stage1 remote q1 = inr s1 →
  stage2 remote q1 s1 = inr (s2, l2m) →
  stage3 remote q1 s1 s2 = inr s3 →
  stage1 remote q2 = inr s1' →
  stage2 remote q2 s1' = inr (s2', l2m') →
  stage3 remote q2 s1' s2' = inr s3' →
  outcome (handle remote (send_message_stream conversation_id q1) w) = Returned body1 →
  outcome (handle remote (send_message_stream conversation_id q2) w) = Returned body2 →
  let after_first := final (exec remote body1 None w) in
  let after_second := final (exec remote body2 None after_first) in
  messages <$> (store after_first !! conversation_id) =
    Some (messages c ++
            [user_message q1;
             assistant_message (council_result s1 s2 s3 l2m (aggregate remote s2 l2m))])%list
  ∧ messages <$> (store after_second !! conversation_id) =
      Some (messages c ++
              [user_message q2;
               assistant_message
                 (council_result s1' s2' s3' l2m' (aggregate remote s2' l2m'))])%list.
Proof.
  intros Hc H1 H2 H3 H1' H2' H3'. unfold handle. cbn. rewrite Hc. cbn.
  intros [= <-] [= <-]. cbn zeta. split.
  - eapply generate_saves_its_copy; eassumption.
  - eapply generate_saves_its_copy; eassumption.
Qed.

Lemma overlapping_streams_lose_an_exchange_witness :
  let after_first :=
    final (exec Demo.remote (generate "c2" "dogs?" Demo.ongoing) None Demo.world) in
  let after_second :=
    final (exec Demo.remote (generate "c2" "birds?" Demo.ongoing) None after_first) in
  messages <$> (store after_first !! "c2") =
    Some (messages Demo.ongoing ++
            [user_message "dogs?";
             assistant_message
               (council_result (JList [JStr "a1"; JStr "a2"]) (JList [JStr "r1"; JStr "r2"])
                  (JStr "final") (JObj [("Response A", JStr "m1")])
                  (aggregate Demo.remote (JList [JStr "r1"; JStr "r2"])
                     (JObj [("Response A", JStr "m1")])))])%list
  ∧ messages <$> (store after_second !! "c2") =
      Some (messages Demo.ongoing ++
              [user_message "birds?";
               assistant_message
                 (council_result (JList [JStr "a1"; JStr "a2"])
                    (JList [JStr "r1"; JStr "r2"])
                    (JStr "final") (JObj [("Response A", JStr "m1")])
                    (aggregate Demo.remote (JList [JStr "r1"; JStr "r2"])
                       (JObj [("Response A", JStr "m1")])))])%list.
Proof.
  apply (overlapping_streams_lose_an_exchange Demo.remote Demo.world "c2" "dogs?" "birds?"
           Demo.ongoing
           (JList [JStr "a1"; JStr "a2"]) (JList [JStr "r1"; JStr "r2"])
           (JObj [("Response A", JStr "m1")]) (JStr "final")
           (JList [JStr "a1"; JStr "a2"]) (JList [JStr "r1"; JStr "r2"])
           (JObj [("Response A", JStr "m1")]) (JStr "final")
           (generate "c2" "dogs?" Demo.ongoing) (generate "c2" "birds?" Demo.ongoing));
    reflexivity.
Defined.

(** ** Routes behind the credential check *)



(** ** Serving the built frontend *)





(** A requested path that begins with "/" replaces the frontend directory in
    [os.path.join]: when it names a regular file anywhere on disk,
    serve_frontend sends that file. *)
Theorem serve_frontend_absolute fs here full_path :
  Frontend.startswith_sep full_path = true →
  fs !! full_path = Some Frontend.RegularFile →
  Frontend.serve_frontend fs here full_path = {| Frontend.path := full_path |}.
Proof.
  intros Habs Hfile. unfold Frontend.serve_frontend, Frontend.join.
  generalize (Frontend.frontend_path here). intros root. cbn [foldl].
  unfold Frontend.join_step. rewrite Habs.
  unfold Frontend.path_exists, Frontend.isfile. rewrite Hfile.
  rewrite bool_decide_eq_true_2 by eauto. reflexivity.
Qed.

Lemma serve_frontend_absolute_witness :
  Frontend.serve_frontend {[ "/etc/passwd" := Frontend.RegularFile ]}
    "/app/backend" "/etc/passwd"
  = {| Frontend.path := "/etc/passwd" |}.
Proof.
  apply (serve_frontend_absolute {[ "/etc/passwd" := Frontend.RegularFile ]}
           "/app/backend" "/etc/passwd"); reflexivity.
Defined.

(** ** What the stages are given *)

(** In a streaming run every call is made for this request: stage 1 and the
    title generator get the prompt; stage 2 gets the prompt and what stage 1
    returned; the rank aggregator gets what stage 2 returned; stage 3 gets
    the prompt with the stage 1 and stage 2 results, and neither the label
    map nor the aggregate ranking; the store is read and written under the
    request's conversation id only; and the batch pipeline and the delete
    and UUID calls are never made. *)
Theorem stream_calls_are_well_fed remote w conversation_id request_content patience call :
  call ∈ invoked (trace (stream remote conversation_id request_content patience w)) →
  well_fed remote conversation_id request_content call.
Proof.
  unfold stream, handle. cbn.
  destruct (store w !! conversation_id) as [c|] eqn:Hc; walk.
  all: intros Hin; rewrite ?elem_of_cons, ?elem_of_nil in Hin.
  all: repeat match goal with H : _ ∨ _ |- _ => destruct H as [H|H] end;
    try contradiction; subst call; cbn; eauto.
Qed.

Lemma stream_calls_are_well_fed_witness :
  well_fed Demo.remote "c1" "hi"
    (stage3_synthesize_final "hi" (JList [JStr "a1"; JStr "a2"])
       (JList [JStr "r1"; JStr "r2"])).
Proof.
  apply (stream_calls_are_well_fed Demo.remote Demo.world "c1" "hi" None).
  replace (invoked (trace (stream Demo.remote "c1" "hi" None Demo.world)))
    with [load_conversation "c1"; stage1_collect_responses "hi";
          stage2_collect_rankings "hi" (JList [JStr "a1"; JStr "a2"]);
          calculate_aggregate_rankings (JList [JStr "r1"; JStr "r2"])
            (JObj [("Response A", JStr "m1")]);
          stage3_synthesize_final "hi" (JList [JStr "a1"; JStr "a2"])
            (JList [JStr "r1"; JStr "r2"]);
          generate_conversation_title "hi";
          save_conversation "c1"
            (set_title
               (append_message (append_message Demo.fresh (user_message "hi"))
                  (assistant_message
                     (council_result (JList [JStr "a1"; JStr "a2"])
                        (JList [JStr "r1"; JStr "r2"]) (JStr "final")
                        (JObj [("Response A", JStr "m1")]) (JList [JStr "m1"]))))
               "About hi")]
    by reflexivity.
  pick.
Defined.
